(** * utils/utils.py: paired random crop, paired dataset, checkpoint writer

    A shallow embedding of [src/utils/utils.py].  Python integers are [Z],
    [//] is floor division ([Z.div] rounds like Python for every sign),
    strings are [string], exceptions are values of [exn] carried in a sum,
    and everything the module reaches outside itself (the random source,
    standard output, the file system) lives in an explicit world [Env]
    threaded by a small state-and-exception monad. *)

From Stdlib Require Import ZArith QArith Lia.
From Stdlib Require Import Strings.Byte.
From Stdlib Require DecimalString DecimalZ.
From stdpp Require Import base strings list gmap.

Local Open Scope Z_scope.

(** ** Exceptions *)

(** The subclasses of Python's [OSError] the module can meet:
    [FileNotFoundError], [FileExistsError], [NotADirectoryError],
    [IsADirectoryError] and PIL's [UnidentifiedImageError]. *)
Inductive os_error :=
| ENOENT
| EEXIST
| ENOTDIR
| EISDIR
| UnidentifiedImage.

Inductive exn :=
| ZeroDivisionError
| ValueError
| IndexError
| OSError (kind : os_error) (filename : string).

(** [str(e)], as interpolated by the f-string of [__getitem__]. *)
Definition str_exn (e : exn) : string :=
  match e with
  | ZeroDivisionError => "integer division or modulo by zero"
  | ValueError => "empty range for randrange()"
  | IndexError => "list index out of range"
  | OSError ENOENT p => "[Errno 2] No such file or directory: '" +:+ p +:+ "'"
  | OSError EEXIST p => "[Errno 17] File exists: '" +:+ p +:+ "'"
  | OSError ENOTDIR p => "[Errno 20] Not a directory: '" +:+ p +:+ "'"
  | OSError EISDIR p => "[Errno 21] Is a directory: '" +:+ p +:+ "'"
  | OSError UnidentifiedImage p => "cannot identify image file '" +:+ p +:+ "'"
  end.

(** ** Images and tensors *)

(** The 8-bit PIL modes: grey ([L], one band), [RGB] (three bands) and
    [RGBA] (four bands). *)
Inductive Mode :=
| L
| RGB
| RGBA.

Definition bands (m : Mode) : nat :=
  match m with
  | L => 1
  | RGB => 3
  | RGBA => 4
  end.

(** A pixel: one byte per band. *)
Definition Pixel : Type := list byte.

(** A decoded PIL image: [size] is [(width, height)] and [getpixel x y] is
    the pixel of column [x], row [y]. *)
Record Image := {
  mode : Mode;
  size : Z * Z;
  getpixel : Z -> Z -> Pixel
}.

(** The result of [ToTensor]: [shape] is [(C, H, W)] and [item c y x] the
    entry of channel [c], row [y], column [x].  Entries are rationals; the
    float32 rounding of torch is not modelled. *)
Record Tensor := {
  shape : list Z;
  item : Z -> Z -> Z -> Q
}.

Definition inside (im : Image) (x y : Z) : bool :=
  (0 <=? x) && (x <? fst (size im)) && (0 <=? y) && (y <? snd (size im)).

(** [Image.crop(box)] with [box = (x0, y0, x1, y1)], that is (left, upper,
    right, lower): the result keeps the mode and has size
    [(x1 - x0, y1 - y0)]; the part of the box that lies outside the image
    is filled with zeros; a box whose right edge is left of its left edge,
    or whose lower edge is above its upper edge, is refused with a
    [ValueError]. *)
Definition crop (im : Image) (box : Z * Z * Z * Z) : exn + Image :=
  let '(x0, y0, x1, y1) := box in
  if x1 <? x0 then inl ValueError
  else if y1 <? y0 then inl ValueError
  else inr {| mode := mode im;
              size := (x1 - x0, y1 - y0);
              getpixel := fun x y =>
                if inside im (x + x0) (y + y0)
                then getpixel im (x + x0) (y + y0)
                else replicate (bands (mode im)) Byte.x00 |}.

Arguments crop : simpl never.

(** [im.convert('RGB')]: a grey value is repeated on the three bands, the
    alpha band is dropped. *)
Definition convert_RGB (im : Image) : Image :=
  {| mode := RGB;
     size := size im;
     getpixel := fun x y =>
       match mode im, getpixel im x y with
       | L, v :: _ => [v; v; v]
       | RGB, r :: g :: b :: _ => [r; g; b]
       | RGBA, r :: g :: b :: _ => [r; g; b]
       | _, _ => replicate 3 Byte.x00
       end |}.

Definition channel (c : Z) (p : Pixel) : byte :=
  default Byte.x00 (p !! Z.to_nat c).

(** [torchvision.transforms.ToTensor] on an 8-bit image: channel-first
    layout [(bands, height, width)], every byte divided by 255. *)
Definition ToTensor (pic : Image) : Tensor :=
  {| shape := [Z.of_nat (bands (mode pic)); snd (size pic); fst (size pic)];
     item := fun c y x =>
       (Z.of_N (Byte.to_N (channel c (getpixel pic x y))) # 255)%Q |}.


(** ** Strings and paths *)

(** [str(n)] for a Python int. *)
Definition str_int (n : Z) : string :=
  DecimalString.NilZero.string_of_int (Z.to_int n).

(** [s.endswith(suffix)]: the last [len(suffix)] characters are compared. *)
Definition endswith (s suffix : string) : bool :=
  let n := String.length s in
  let m := String.length suffix in
  if (m <=? n)%nat
  then String.eqb (String.substring (n - m) m s) suffix
  else false.

(** [s.startswith(prefix)]. *)
Definition startswith (s prefix : string) : bool := String.prefix prefix s.

(** [s.endswith((suffix1, suffix2, ...))]. *)
Definition endswith_any (s : string) (suffixes : list string) : bool :=
  existsb (endswith s) suffixes.

(** [os.path.join(a, b)] of [posixpath], for one component [b]. *)
Definition os_path_join (a b : string) : string :=
  if startswith b "/" then b
  else if String.eqb a "" || endswith a "/" then a +:+ b
  else a +:+ "/" +:+ b.

(** [sub in s]. *)
Definition contains (s sub : string) : Prop :=
  exists pre post, s = pre +:+ sub +:+ post.

(** ** Checkpoints and the file system *)

(** What [state_dict()] returns: an ordered dictionary of named parameters. *)
Definition StateDict : Type := list (string * list Q).

(** A model or an optimizer, seen through [state_dict()]. *)
Record Stateful := { state_dict : StateDict }.

(** The dictionary handed to [torch.save]. *)
Record Checkpoint := {
  model_state_dict : StateDict;
  optimizer_state_dict : StateDict;
  epoch : Z
}.

(** What a path names.  A directory carries the names [os.listdir]
    reports, in the order it reports them. *)
Inductive Node :=
| Directory (entries : list string)
| ImageFile (im : Image)
| CheckpointFile (ck : Checkpoint)
| OtherFile.

(** ** The world *)

Inductive Event :=
| EvListdir (path : string)
| EvOpen (path : string)
| EvMakedirs (path : string)
| EvSave (path : string)
| EvPrint (line : string).

(** [draws] and [cursor] are the random source (the [cursor]-th raw draw is
    consumed next), [events] logs every external call and every printed
    line (oldest first), [fs] maps paths to what they name. *)
Record Env := {
  draws : nat -> Z;
  cursor : nat;
  events : list Event;
  fs : gmap string Node
}.

Definition emit (ev : Event) (e : Env) : Env :=
  {| draws := draws e; cursor := cursor e;
     events := events e ++ [ev]; fs := fs e |}.

Definition advance (e : Env) : Env :=
  {| draws := draws e; cursor := S (cursor e);
     events := events e; fs := fs e |}.

Definition set_fs (m : gmap string Node) (e : Env) : Env :=
  {| draws := draws e; cursor := cursor e;
     events := events e; fs := m |}.

(** ** State and exception monad *)

(** A raised exception keeps the state reached so far: what was printed
    before a [raise] stays printed. *)
Definition M (S A : Type) : Type := S -> (exn + A) * S.

Definition ret {S A} (a : A) : M S A := fun s => (inr a, s).

Definition raise {S A} (e : exn) : M S A := fun s => (inl e, s).

Definition bind {S A B} (m : M S A) (k : A -> M S B) : M S B :=
  fun s => match m s with
           | (inr a, s') => k a s'
           | (inl e, s') => (inl e, s')
           end.

Notation "x <- m ;; k" := (bind m (fun x => k))
  (at level 100, m at next level, right associativity).
Notation "m ;;; k" := (bind m (fun _ => k))
  (at level 100, right associativity).

(** A pure computation that may raise. *)
Definition lift {S A} (r : exn + A) : M S A := fun s => (r, s).

(** [try: body except Exception as e: handler e]. *)
Definition try_except {S A} (body : M S A) (handler : exn -> M S A) : M S A :=
  fun s => match body s with
           | (inl e, s') => handler e s'
           | r => r
           end.

(** Run a computation on the world inside a method: the state is the
    object [self] paired with the world. *)
Definition world {O A} (m : M Env A) : M (O * Env) A :=
  fun s => let '(r, e') := m (snd s) in (r, (fst s, e')).

(** Read an attribute of [self]. *)
Definition getattr {O A} (field : O -> A) : M (O * Env) A :=
  fun s => (inr (field (fst s)), s).

(** ** Primitives *)

(** [a // b] on ints. *)
Definition floordiv (a b : Z) : exn + Z :=
  if b =? 0 then inl ZeroDivisionError else inr (a / b).

(** [random.randint(a, b)]: [randrange(a, b + 1)], that is
    [a + _randbelow(b - a + 1)], and a [ValueError] on an empty range.
    The raw draw is reduced into the range. *)
Definition randint (a b : Z) : M Env Z :=
  fun e => if b <? a then (inl ValueError, e)
           else (inr (a + draws e (cursor e) mod (b - a + 1)), advance e).

(** [print(line)]. *)
Definition print (line : string) : M Env unit :=
  fun e => (inr tt, emit (EvPrint line) e).

(** [os.listdir(path)]. *)
Definition os_listdir (path : string) : M Env (list string) :=
  fun e => let e' := emit (EvListdir path) e in
           match fs e !! path with
           | Some (Directory entries) => (inr entries, e')
           | Some _ => (inl (OSError ENOTDIR path), e')
           | None => (inl (OSError ENOENT path), e')
           end.

(** [Image.open(path).convert('RGB')]. *)
Definition Image_open_convert (path : string) : M Env Image :=
  fun e => let e' := emit (EvOpen path) e in
           match fs e !! path with
           | Some (ImageFile im) => (inr (convert_RGB im), e')
           | Some (Directory _) => (inl (OSError EISDIR path), e')
           | Some _ => (inl (OSError UnidentifiedImage path), e')
           | None => (inl (OSError ENOENT path), e')
           end.

(** [os.path.exists(path)]. *)
Definition os_path_exists (path : string) : M Env bool :=
  fun e => (inr (bool_decide (is_Some (fs e !! path))), e).

(** [os.makedirs(path)] without [exist_ok]: refuses the empty path and a
    path that exists already.  Paths are keys of a flat map; intermediate
    directories and permissions are not modelled. *)
Definition os_makedirs (path : string) : M Env unit :=
  fun e => let e' := emit (EvMakedirs path) e in
           if String.eqb path "" then (inl (OSError ENOENT path), e')
           else match fs e !! path with
                | Some _ => (inl (OSError EEXIST path), e')
                | None => (inr tt, set_fs (<[path := Directory []]> (fs e)) e')
                end.

(** [torch.save(obj, path)]: creates or replaces the file at [path], and
    refuses a path that names a directory.  Whether the parent directory
    exists is not looked at. *)
Definition torch_save (obj : Checkpoint) (path : string) : M Env unit :=
  fun e => let e' := emit (EvSave path) e in
           match fs e !! path with
           | Some (Directory _) => (inl (OSError EISDIR path), e')
           | _ => (inr tt, set_fs (<[path := CheckpointFile obj]> (fs e)) e')
           end.

(** [l[idx]] on a Python list: a negative index counts from the end. *)
Definition list_getitem {A} (l : list A) (idx : Z) : exn + A :=
  let n := Z.of_nat (length l) in
  let i := if idx <? 0 then idx + n else idx in
  if (i <? 0) || (n <=? i) then inl IndexError
  else match l !! Z.to_nat i with
       | Some a => inr a
       | None => inl IndexError
       end.

(** ** [random_crop] *)

(** Lines 12 to 20 of [random_crop]: the low-res crop size, the low-res
    crop origin drawn at random and the high-res origin derived from it. *)
Definition crop_origins (lowres_img : Image) (hr_crop_size scale : Z)
  : M Env (Z * (Z * Z) * (Z * Z)) :=
  lowres_crop_size <- lift (floordiv hr_crop_size scale) ;;
  lowres_x <- randint 0 (fst (size lowres_img) - lowres_crop_size) ;;
  lowres_y <- randint 0 (snd (size lowres_img) - lowres_crop_size) ;;
  let highres_x := lowres_x * scale in
  let highres_y := lowres_y * scale in
  ret (lowres_crop_size, (lowres_x, lowres_y), (highres_x, highres_y)).

(** The box cut out of the low-res image (line 23). *)
Definition lowres_box (lowres_crop_size lowres_x lowres_y : Z) : Z * Z * Z * Z :=
  (lowres_x, lowres_y, lowres_x + lowres_crop_size, lowres_y + lowres_crop_size).

(** The box cut out of the high-res image (line 24). *)
Definition highres_box (hr_crop_size highres_x highres_y : Z) : Z * Z * Z * Z :=
  (highres_x, highres_y, highres_x + hr_crop_size, highres_y + hr_crop_size).

Definition random_crop (lowres_img highres_img : Image) (hr_crop_size scale : Z)
  : M Env (Tensor * Tensor) :=
  o <- crop_origins lowres_img hr_crop_size scale ;;
  let '(lowres_crop_size, (lowres_x, lowres_y), (highres_x, highres_y)) := o in
  lowres_img_cropped <-
    lift (crop lowres_img (lowres_box lowres_crop_size lowres_x lowres_y)) ;;
  highres_img_cropped <-
    lift (crop highres_img (highres_box hr_crop_size highres_x highres_y)) ;;
  let lowres_img_cropped := ToTensor lowres_img_cropped in
  let highres_img_cropped := ToTensor highres_img_cropped in
  ret (lowres_img_cropped, highres_img_cropped).

(** ** [CustomDataset] *)

Record CustomDataset := {
  lowres_dir : string;
  highres_dir : string;
  image_files : list string;
  hr_crop_size : Z;
  scale : Z
}.

(** The extensions [__init__] keeps. *)
Definition image_extensions : list string := [".png"; ".jpg"; ".jpeg"].

(** [CustomDataset.__init__]. *)
Definition init (lowres_dir highres_dir : string) (hr_crop_size scale : Z)
  : M Env CustomDataset :=
  listing <- os_listdir lowres_dir ;;
  let self := {| lowres_dir := lowres_dir;
                 highres_dir := highres_dir;
                 image_files :=
                   List.filter (fun f => endswith_any f image_extensions) listing;
                 hr_crop_size := hr_crop_size;
                 scale := scale |} in
  (if Z.of_nat (length (image_files self)) =? 0
   then print ("No image files found in " +:+ lowres_dir
               +:+ ". Please check the directory and file formats.")
   else print ("Found " +:+ str_int (Z.of_nat (length (image_files self)))
               +:+ " image files in " +:+ lowres_dir)) ;;;
  ret self.

(** [CustomDataset.__len__]. *)
Definition len (self : CustomDataset) : Z :=
  Z.of_nat (length (image_files self)).

(** The line printed by the [except] clause of [__getitem__]. *)
Definition load_error_line (lowres_path highres_path : string) (e : exn) : string :=
  "Error loading image " +:+ lowres_path +:+ " or " +:+ highres_path
  +:+ ": " +:+ str_exn e.

(** Lines 54 and 55 of [__getitem__]: the two paths of entry [idx]. *)
Definition resolve_paths (idx : Z) : M (CustomDataset * Env) (string * string) :=
  ldir <- getattr lowres_dir ;;
  files <- getattr image_files ;;
  lname <- lift (list_getitem files idx) ;;
  let lowres_path := os_path_join ldir lname in
  hdir <- getattr highres_dir ;;
  files <- getattr image_files ;;
  hname <- lift (list_getitem files idx) ;;
  let highres_path := os_path_join hdir hname in
  ret (lowres_path, highres_path).

(** [CustomDataset.__getitem__]. *)
Definition getitem (idx : Z) : M (CustomDataset * Env) (Tensor * Tensor) :=
  paths <- resolve_paths idx ;;
  let '(lowres_path, highres_path) := paths in
  images <-
    try_except
      (lowres_image <- world (Image_open_convert lowres_path) ;;
       highres_image <- world (Image_open_convert highres_path) ;;
       ret (lowres_image, highres_image))
      (fun e =>
         world (print (load_error_line lowres_path highres_path e)) ;;;
         raise e) ;;
  let '(lowres_image, highres_image) := images in
  crop_size <- getattr hr_crop_size ;;
  factor <- getattr scale ;;
  world (random_crop lowres_image highres_image crop_size factor).

(** ** [save_checkpoint] *)

(** The file name of the checkpoint of an epoch. *)
Definition checkpoint_name (epoch : Z) : string :=
  "model_epoch_" +:+ str_int epoch +:+ "_64_numfeatures.pth".

Definition save_checkpoint (model optimizer : Stateful)
  (checkpoint_dir : string) (epoch : Z) : M Env unit :=
  present <- os_path_exists checkpoint_dir ;;
  (if negb present then os_makedirs checkpoint_dir else ret tt) ;;;
  let checkpoint_path := os_path_join checkpoint_dir (checkpoint_name epoch) in
  torch_save {| model_state_dict := state_dict model;
                optimizer_state_dict := state_dict optimizer;
                epoch := epoch |} checkpoint_path ;;;
  print ("Checkpoint saved at " +:+ checkpoint_path).

(** ** Concrete inputs used by the examples *)

Definition ramp (x y : Z) : byte :=
  default Byte.x00 (Byte.of_N (Z.to_N ((x + 16 * y) mod 256))).

(** An RGB test image. *)
Definition gradient (w h : Z) : Image :=
  {| mode := RGB; size := (w, h);
     getpixel := fun x y => [ramp x y; Byte.x80; Byte.xff] |}.

(** A grey test image. *)
Definition grey (w h : Z) : Image :=
  {| mode := L; size := (w, h); getpixel := fun x y => [ramp x y] |}.

Definition env0 : Env :=
  {| draws := fun n => 7 + 3 * Z.of_nat n;
     cursor := 0;
     events := [];
     fs := {[ "lr" := Directory ["b.jpg"; "notes.txt"; "d.jpeg"; "c.PNG"; "a.png"];
              "lr/a.png" := ImageFile (gradient 8 8);
              "hr/a.png" := ImageFile (gradient 32 32);
              "lr/b.jpg" := ImageFile (gradient 8 8);
              "hr/b.jpg" := OtherFile;
              "hr/d.jpeg" := ImageFile (gradient 32 32);
              "lr/g.png" := ImageFile (grey 8 8);
              "hr/g.png" := ImageFile (grey 32 32) ]} |}.

(** The dataset [CustomDataset("lr", "hr", 16, 4)] builds in [env0]. *)
Definition ds0 : CustomDataset :=
  {| lowres_dir := "lr"; highres_dir := "hr";
     image_files := ["b.jpg"; "d.jpeg"; "a.png"];
     hr_crop_size := 16; scale := 4 |}.

Definition net0 : Stateful := {| state_dict := [("conv.weight", [1 # 2; 3 # 4])] |}.

Definition opt0 : Stateful := {| state_dict := [("lr", [1 # 1000])] |}.

(** ** What the specification counts *)

(** A name is recognized when it ends in one of the three extensions,
    spelled exactly as listed. *)
Definition recognized (name : string) : Prop :=
  exists stem ext,
    (ext = ".png" \/ ext = ".jpg" \/ ext = ".jpeg") /\ name = stem +:+ ext.

(** [counts P l n]: exactly [n] entries of [l] satisfy [P]. *)
Inductive counts (P : string -> Prop) : list string -> nat -> Prop :=
| counts_nil : counts P [] 0
| counts_hit name l n : P name -> counts P l n -> counts P (name :: l) (S n)
| counts_miss name l n : ~ P name -> counts P l n -> counts P (name :: l) n.

(** A file that opens and decodes as an image. *)
Definition loads (m : gmap string Node) (path : string) : Prop :=
  exists im, m !! path = Some (ImageFile im).

(** A method leaves the object it is called on as it found it. *)
Definition preserves_self {O A} (m : M (O * Env) A) : Prop :=
  forall s, fst (snd (m s)) = fst s.

(** The origin [random_crop] draws in the world [e]. *)
Definition drawn_x (lowres_img : Image) (c : Z) (e : Env) : Z :=
  0 + draws e (cursor e) mod (fst (size lowres_img) - c - 0 + 1).

Definition drawn_y (lowres_img : Image) (c : Z) (e : Env) : Z :=
  0 + draws e (S (cursor e)) mod (snd (size lowres_img) - c - 0 + 1).


(** An external call that reads or reports, as opposed to one that writes
    the file system. *)
Definition read_only (ev : Event) : Prop :=
  match ev with
  | EvOpen _ | EvPrint _ | EvListdir _ => True
  | EvMakedirs _ | EvSave _ => False
  end.

(** A printed line. *)
Definition is_print (ev : Event) : Prop :=
  match ev with
  | EvPrint _ => True
  | _ => False
  end.

(** ** Tactics for running the monad *)

Ltac run :=
  unfold bind, lift, ret, raise, try_except, world, getattr.

Ltac zbool :=
  repeat match goal with
  | |- context [?a <? ?b] => destruct (Z.ltb_spec a b); try lia
  | |- context [?a <=? ?b] => destruct (Z.leb_spec a b); try lia
  | |- context [?a =? ?b] => destruct (Z.eqb_spec a b); try lia
  end; simpl.

(** * Properties *)

(** ** Strings *)

Lemma app_cons a (s t : string) : String a s +:+ t = String a (s +:+ t).
Proof. reflexivity. Qed.

Lemma app_assoc_str (s t u : string) : (s +:+ t) +:+ u = s +:+ t +:+ u.
Proof.
  induction s as [|a s IH]; [reflexivity|]. rewrite !app_cons. by f_equal.
Qed.

Lemma length_app_str (s t : string) :
  String.length (s +:+ t) = (String.length s + String.length t)%nat.
Proof.
  induction s as [|a s IH]; [reflexivity|].
  rewrite app_cons. simpl. by rewrite IH.
Qed.

Lemma substring_all (s : string) : String.substring 0 (String.length s) s = s.
Proof. induction s as [|a s IH]; [reflexivity|]. simpl. by rewrite IH. Qed.

Lemma substring_skip (p s : string) :
  String.substring (String.length p) (String.length s) (p +:+ s) = s.
Proof.
  induction p as [|a p IH]; [apply substring_all|].
  rewrite app_cons. simpl. exact IH.
Qed.

Lemma substring_split (s : string) (k : nat) :
  (k <= String.length s)%nat ->
  s = String.substring 0 k s
      +:+ String.substring k (String.length s - k) s.
Proof.
  revert k. induction s as [|a s IH]; intros [|k] Hk; simpl in *;
    try reflexivity; try lia.
  - by rewrite substring_all.
  - rewrite app_cons. f_equal. apply IH. lia.
Qed.

(** [endswith] decides "[s] is some stem followed by [suffix]". *)
Lemma endswith_spec (s suffix : string) :
  endswith s suffix = true <-> exists stem, s = stem +:+ suffix.
Proof.
  unfold endswith. split.
  - destruct (Nat.leb_spec (String.length suffix) (String.length s)) as [Hle|];
      [|discriminate].
    intros Heq%String.eqb_eq.
    exists (String.substring 0 (String.length s - String.length suffix) s).
    pose proof (substring_split s (String.length s - String.length suffix)
                  ltac:(lia)) as Hs.
    replace (String.length s - (String.length s - String.length suffix))%nat
      with (String.length suffix) in Hs by lia.
    rewrite Heq in Hs. exact Hs.
  - intros [stem ->]. rewrite length_app_str.
    destruct (Nat.leb_spec (String.length suffix)
                (String.length stem + String.length suffix)) as [_|]; [|lia].
    replace (String.length stem + String.length suffix - String.length suffix)%nat
      with (String.length stem) by lia.
    rewrite substring_skip. apply String.eqb_refl.
Qed.

(** The test of [__init__] accepts exactly the recognized names. *)
Lemma endswith_any_recognized (name : string) :
  endswith_any name image_extensions = true <-> recognized name.
Proof.
  unfold endswith_any, image_extensions, recognized. simpl.
  rewrite !orb_true_iff, !endswith_spec. split.
  - intros [[stem ->]|[[stem ->]|[[stem ->]|?]]];
      [exists stem, ".png" | exists stem, ".jpg" | exists stem, ".jpeg"
      | discriminate]; auto.
  - intros (stem & ext & [->|[->| ->]] & ->);
      [left | right; left | right; right; left]; by exists stem.
Qed.

(** ** Primitives *)

Lemma floordiv_nonzero (a b : Z) : b <> 0 -> floordiv a b = inr (a / b).
Proof. intros Hb. unfold floordiv. by zbool. Qed.

Lemma randint_in_range (a b : Z) (e : Env) :
  a <= b ->
  randint a b e = (inr (a + draws e (cursor e) mod (b - a + 1)), advance e)
  /\ a <= a + draws e (cursor e) mod (b - a + 1) <= b.
Proof.
  intros Hab. unfold randint. zbool. split; [reflexivity|].
  pose proof (Z.mod_pos_bound (draws e (cursor e)) (b - a + 1)). lia.
Qed.

Lemma randint_empty (a b : Z) (e : Env) :
  b < a -> randint a b e = (inl ValueError, e).
Proof. intros Hab. unfold randint. by zbool. Qed.

(** ** [random_crop] *)

Lemma crop_origins_ok (lowres_img : Image) (hr sc : Z) (e : Env) :
  sc <> 0 ->
  hr / sc <= fst (size lowres_img) ->
  hr / sc <= snd (size lowres_img) ->
  let c := hr / sc in
  let x := drawn_x lowres_img c e in
  let y := drawn_y lowres_img c e in
  crop_origins lowres_img hr sc e
  = (inr (c, (x, y), (x * sc, y * sc)), advance (advance e))
  /\ 0 <= x <= fst (size lowres_img) - c
  /\ 0 <= y <= snd (size lowres_img) - c.
Proof.
  intros Hsc Hw Hh. cbv zeta. unfold crop_origins. run.
  rewrite floordiv_nonzero by done.
  destruct (randint_in_range 0 (fst (size lowres_img) - hr / sc) e)
    as [-> Hx]; [lia|].
  destruct (randint_in_range 0 (snd (size lowres_img) - hr / sc) (advance e))
    as [-> Hy]; [lia|].
  split; [reflexivity|]. unfold drawn_x, drawn_y. simpl in Hy. lia.
Qed.

Lemma crop_origins_too_small (lowres_img : Image) (hr sc : Z) (e : Env) :
  sc <> 0 ->
  fst (size lowres_img) < hr / sc \/ snd (size lowres_img) < hr / sc ->
  exists e', crop_origins lowres_img hr sc e = (inl ValueError, e')
             /\ events e' = events e /\ fs e' = fs e.
Proof.
  intros Hsc Hsmall. unfold crop_origins. run.
  rewrite floordiv_nonzero by done.
  destruct (Z.lt_ge_cases (fst (size lowres_img)) (hr / sc)) as [Hw|Hw].
  - rewrite randint_empty by lia. eauto.
  - destruct (randint_in_range 0 (fst (size lowres_img) - hr / sc) e)
      as [-> _]; [lia|].
    rewrite randint_empty by lia. eauto.
Qed.










(** Every origin of the admissible range is drawn by some random source. *)
Lemma crop_origins_reachable (lowres_img : Image) (hr sc x y : Z) (e : Env) :
  sc <> 0 ->
  0 <= x <= fst (size lowres_img) - hr / sc ->
  0 <= y <= snd (size lowres_img) - hr / sc ->
  exists d,
    fst (crop_origins lowres_img hr sc
           {| draws := d; cursor := cursor e; events := events e; fs := fs e |})
    = inr (hr / sc, (x, y), (x * sc, y * sc)).
Proof.
  intros Hsc Hx Hy.
  exists (fun n => if decide (n = cursor e) then x else y).
  set (e0 := {| draws := _ |}).
  destruct (crop_origins_ok lowres_img hr sc e0 Hsc) as (-> & _); [lia..|].
  simpl. unfold drawn_x, drawn_y. simpl.
  rewrite decide_True by done. rewrite decide_False by lia.
  rewrite !Z.mod_small by lia. repeat f_equal; lia.
Qed.

(** C3. When the low-res image is narrower or lower than the low-res crop,
    [random_crop] raises (the [ValueError] of [random.randint] on an empty
    range): no crop is returned, nothing is printed, the file system is
    untouched. *)
Theorem random_crop_small_lowres_raises
  (lowres_img highres_img : Image) (hr sc : Z) (e : Env) :
  sc <> 0 ->
  fst (size lowres_img) < hr / sc \/ snd (size lowres_img) < hr / sc ->
  exists e',
    random_crop lowres_img highres_img hr sc e = (inl ValueError, e')
    /\ events e' = events e /\ fs e' = fs e.
Proof.
  intros Hsc Hsmall.
  destruct (crop_origins_too_small lowres_img hr sc e Hsc Hsmall)
    as (e' & He & Hev & Hfs).
  exists e'. unfold random_crop. run. by rewrite He.
Qed.

Lemma random_crop_small_lowres_raises_witness :
  exists e',
    random_crop (gradient 8 3) (gradient 32 32) 16 4 env0 = (inl ValueError, e')
    /\ events e' = events env0 /\ fs e' = fs env0.
Proof.
  apply (random_crop_small_lowres_raises (gradient 8 3) (gradient 32 32) 16 4 env0);
    [lia | right; by vm_compute].
Defined.



(** With [hr_crop_size = 10] and [scale = 4] the low-res crop is 2 by 2
    and the high-res crop 10 by 10, although 2 * 4 is not 10. *)
Example random_crop_10_4 :
  match fst (random_crop (gradient 8 8) (gradient 32 32) 10 4 env0) with
  | inr (tl, th) => shape tl = [3; 2; 2] /\ shape th = [3; 10; 10]
  | inl _ => False
  end.
Proof. vm_compute. auto. Qed.

(** Only the low-res image is measured: a high-res image smaller than its
    crop is cut all the same, and the part of the box outside it is black. *)
Example random_crop_small_highres :
  match fst (random_crop (gradient 8 8) (gradient 8 8) 16 4 env0) with
  | inr (tl, th) =>
      shape th = [3; 16; 16] /\ item th 0 15 15 = (0 # 255)%Q
  | inl _ => False
  end.
Proof. vm_compute. auto. Qed.

(** ** [CustomDataset.__init__] and [__len__] *)

Lemma filter_counts_recognized (l : list string) :
  counts recognized l
    (length (List.filter (fun f => endswith_any f image_extensions) l)).
Proof.
  induction l as [|name l IH]; cbn [List.filter]; [constructor|].
  destruct (endswith_any name image_extensions) eqn:Hext; cbn [length].
  - apply counts_hit; [by apply endswith_any_recognized | exact IH].
  - apply counts_miss; [|exact IH].
    intros Hrec%endswith_any_recognized. congruence.
Qed.

(** [counts] determines the number. *)
Lemma counts_functional (P : string -> Prop) (l : list string) (n m : nat) :
  counts P l n -> counts P l m -> n = m.
Proof.
  intros Hn. revert m.
  induction Hn as [|name l n Hp _ IH|name l n Hp _ IH]; intros m Hm;
    inversion Hm; subst; auto; contradiction.
Qed.

Lemma init_ok (ldir hdir : string) (hr sc : Z) (entries : list string) (e : Env) :
  fs e !! ldir = Some (Directory entries) ->
  exists line,
    init ldir hdir hr sc e
    = (inr {| lowres_dir := ldir; highres_dir := hdir;
              image_files :=
                List.filter (fun f => endswith_any f image_extensions) entries;
              hr_crop_size := hr; scale := sc |},
       emit (EvPrint line) (emit (EvListdir ldir) e)).
Proof.
  intros Hdir. unfold init, os_listdir, print. run. rewrite Hdir. simpl.
  destruct (_ =? 0); eauto.
Qed.

(** C5. For every listing of [lowres_dir], the length of the dataset
    built from it is the number of entries whose name ends in [.png],
    [.jpg] or [.jpeg], spelled exactly so; other entries are not counted. *)
Theorem init_len_counts_recognized
  (ldir hdir : string) (hr sc : Z) (entries : list string) (e : Env) :
  fs e !! ldir = Some (Directory entries) ->
  exists self e' n,
    init ldir hdir hr sc e = (inr self, e')
    /\ len self = Z.of_nat n
    /\ counts recognized entries n.
Proof.
  intros Hdir. destruct (init_ok ldir hdir hr sc entries e Hdir) as [line ->].
  eexists _, _, _. split; [reflexivity|]. split; [reflexivity|].
  apply filter_counts_recognized.
Qed.

Lemma init_len_counts_recognized_witness :
  exists self e' n,
    init "lr" "hr" 16 4 env0 = (inr self, e')
    /\ len self = Z.of_nat n
    /\ counts recognized ["b.jpg"; "notes.txt"; "d.jpeg"; "c.PNG"; "a.png"] n.
Proof.
  apply (init_len_counts_recognized "lr" "hr" 16 4
           ["b.jpg"; "notes.txt"; "d.jpeg"; "c.PNG"; "a.png"] env0).
  reflexivity.
Defined.

(** Three [.png] files and one [.txt] file give length 3; an upper-case
    extension is not recognized. *)
Example init_three_png_one_txt :
  let e := set_fs {[ "d" := Directory ["1.png"; "2.png"; "readme.txt"; "3.png"] ]} env0 in
  (len <$> sum_rect (fun _ => option CustomDataset) (fun _ => None) Some
             (fst (init "d" "h" 16 4 e))) = Some 3
  /\ endswith_any "c.PNG" image_extensions = false.
Proof. split; reflexivity. Qed.

Example init_env0 : fst (init "lr" "hr" 16 4 env0) = inr ds0.
Proof. reflexivity. Qed.

(** ** Indexing *)

Lemma list_getitem_out_of_range {A} (l : list A) (idx : Z) :
  idx < - Z.of_nat (length l) \/ Z.of_nat (length l) <= idx ->
  list_getitem l idx = inl IndexError.
Proof. intros Hidx. unfold list_getitem. by zbool. Qed.

Lemma list_getitem_in_range {A} (l : list A) (idx : Z) :
  0 <= idx < Z.of_nat (length l) ->
  exists a, l !! Z.to_nat idx = Some a /\ list_getitem l idx = inr a.
Proof.
  intros Hidx. unfold list_getitem. zbool.
  destruct (lookup_lt_is_Some_2 l (Z.to_nat idx)) as [a Ha]; [lia|].
  exists a. by rewrite Ha.
Qed.

Lemma list_getitem_negative {A} (l : list A) (idx : Z) :
  - Z.of_nat (length l) <= idx < 0 ->
  list_getitem l idx = list_getitem l (Z.of_nat (length l) + idx).
Proof.
  intros Hidx. unfold list_getitem. zbool.
  by replace (idx + Z.of_nat (length l)) with (Z.of_nat (length l) + idx) by lia.
Qed.

Lemma resolve_paths_unfold (idx : Z) (ds : CustomDataset) (e : Env) :
  resolve_paths idx (ds, e)
  = match list_getitem (image_files ds) idx with
    | inl ex => (inl ex, (ds, e))
    | inr name =>
        (inr (os_path_join (lowres_dir ds) name,
              os_path_join (highres_dir ds) name), (ds, e))
    end.
Proof.
  unfold resolve_paths. run. simpl.
  destruct (list_getitem (image_files ds) idx); reflexivity.
Qed.

(** What [__getitem__] does once entry [name] is resolved. *)
Lemma getitem_unfold (idx : Z) (ds : CustomDataset) (e : Env) (name : string) :
  list_getitem (image_files ds) idx = inr name ->
  let lp := os_path_join (lowres_dir ds) name in
  let hp := os_path_join (highres_dir ds) name in
  getitem idx (ds, e)
  = match Image_open_convert lp e with
    | (inl ex, e1) => (inl ex, (ds, emit (EvPrint (load_error_line lp hp ex)) e1))
    | (inr iml, e1) =>
        match Image_open_convert hp e1 with
        | (inl ex, e2) =>
            (inl ex, (ds, emit (EvPrint (load_error_line lp hp ex)) e2))
        | (inr imh, e2) =>
            let '(r, e3) := random_crop iml imh (hr_crop_size ds) (scale ds) e2 in
            (r, (ds, e3))
        end
    end.
Proof.
  intros Hname lp hp. unfold getitem. unfold bind at 1.
  rewrite resolve_paths_unfold, Hname. fold lp hp.
  unfold print. run. simpl.
  destruct (Image_open_convert lp e) as [[ex|iml] e1]; simpl; [reflexivity|].
  destruct (Image_open_convert hp e1) as [[ex|imh] e2]; simpl; reflexivity.
Qed.

Lemma Image_open_loads (path : string) (e : Env) (im : Image) :
  fs e !! path = Some (ImageFile im) ->
  Image_open_convert path e = (inr (convert_RGB im), emit (EvOpen path) e).
Proof. intros Him. unfold Image_open_convert. by rewrite Him. Qed.

Lemma Image_open_fails (path : string) (e : Env) :
  ~ loads (fs e) path ->
  exists kind,
    Image_open_convert path e = (inl (OSError kind path), emit (EvOpen path) e).
Proof.
  intros Hno. unfold Image_open_convert.
  destruct (fs e !! path) as [[entries|im|ck|]|] eqn:Hp; eauto.
  destruct Hno. by exists im.
Qed.

Lemma Image_open_cases (path : string) (e : Env) :
  (exists im, fs e !! path = Some (ImageFile im)
              /\ Image_open_convert path e
                 = (inr (convert_RGB im), emit (EvOpen path) e))
  \/ (~ loads (fs e) path
      /\ exists kind,
           Image_open_convert path e
           = (inl (OSError kind path), emit (EvOpen path) e)).
Proof.
  destruct (fs e !! path) as [[entries|im|ck|]|] eqn:Hp.
  2: { left. exists im. split; [done|]. by apply Image_open_loads. }
  all: right; assert (~ loads (fs e) path) as Hno
         by (intros [im Him]; congruence);
       split; [exact Hno | by apply Image_open_fails].
Qed.

Lemma load_error_line_contains (lp hp : string) (ex : exn) :
  contains (load_error_line lp hp ex) lp
  /\ contains (load_error_line lp hp ex) hp.
Proof.
  unfold contains, load_error_line. split.
  - by exists "Error loading image ", (" or " +:+ hp +:+ ": " +:+ str_exn ex).
  - exists ("Error loading image " +:+ lp +:+ " or "), (": " +:+ str_exn ex).
    by rewrite !app_assoc_str.
Qed.

Lemma random_crop_not_IndexError
  (lowres_img highres_img : Image) (hr sc : Z) (e : Env) :
  fst (random_crop lowres_img highres_img hr sc e) <> inl IndexError.
Proof.
  unfold random_crop, crop_origins, floordiv, randint, crop,
    lowres_box, highres_box. run.
  repeat (case_match; simplify_eq/=); congruence.
Qed.

(** ** [CustomDataset.__getitem__] *)

(** C4, as the code has it.  An index below [-length()] or at least
    [length()] raises [IndexError]: no sample is returned, no file is
    opened, nothing is printed. *)
Theorem getitem_out_of_range (ds : CustomDataset) (e : Env) (idx : Z) :
  idx < - len ds \/ len ds <= idx ->
  getitem idx (ds, e) = (inl IndexError, (ds, e)).
Proof.
  intros Hidx. unfold getitem. unfold bind at 1.
  rewrite resolve_paths_unfold.
  by rewrite (list_getitem_out_of_range (image_files ds) idx Hidx).
Qed.

Lemma getitem_out_of_range_witness :
  getitem 3 (ds0, env0) = (inl IndexError, (ds0, env0))
  /\ getitem (-4) (ds0, env0) = (inl IndexError, (ds0, env0)).
Proof.
  split.
  - apply (getitem_out_of_range ds0 env0 3). right. by vm_compute.
  - apply (getitem_out_of_range ds0 env0 (-4)). left. by vm_compute.
Defined.

(** The index -1 lies outside the interval from 0 to [length()], yet
    [get] raises no [IndexError] there: it returns the sample of the last
    entry. *)
Lemma getitem_minus_one_returns :
  ~ (0 <= -1 < len ds0)
  /\ fst (getitem (-1) (ds0, env0)) <> inl IndexError
  /\ exists tl th,
       fst (getitem (-1) (ds0, env0)) = inr (tl, th)
       /\ shape tl = [3; 4; 4] /\ shape th = [3; 16; 16].
Proof.
  split; [lia|].
  assert (exists tl th,
             fst (getitem (-1) (ds0, env0)) = inr (tl, th)
             /\ shape tl = [3; 4; 4] /\ shape th = [3; 16; 16]) as Hret.
  { eexists _, _. split; [vm_compute; reflexivity|]. split; reflexivity. }
  split; [|exact Hret].
  destruct Hret as (tl & th & -> & _). discriminate.
Qed.

(** C6. For an in-range index whose low-res or high-res file does not
    load, [get] opens each file at most once, prints one line that
    contains both paths, and re-raises the error of the failed open; no
    sample is returned. *)
Theorem getitem_load_failure_logged
  (ds : CustomDataset) (e : Env) (idx : Z) (name : string) :
  0 <= idx < len ds ->
  image_files ds !! Z.to_nat idx = Some name ->
  ~ loads (fs e) (os_path_join (lowres_dir ds) name)
  \/ ~ loads (fs e) (os_path_join (highres_dir ds) name) ->
  let lp := os_path_join (lowres_dir ds) name in
  let hp := os_path_join (highres_dir ds) name in
  exists ex line e',
    getitem idx (ds, e) = (inl ex, (ds, e'))
    /\ (fst (Image_open_convert lp e) = inl ex
        \/ fst (Image_open_convert hp e) = inl ex)
    /\ line = load_error_line lp hp ex
    /\ contains line lp /\ contains line hp
    /\ (events e' = events e ++ [EvOpen lp; EvPrint line]
        \/ events e' = events e ++ [EvOpen lp; EvOpen hp; EvPrint line])
    /\ fs e' = fs e.
Proof.
  intros Hidx Hname Hfail. cbv zeta.
  destruct (list_getitem_in_range (image_files ds) idx Hidx) as (name' & Hn & Hget).
  assert (name' = name) as -> by congruence.
  rewrite (getitem_unfold idx ds e name Hget). cbv zeta.
  set (lp := os_path_join (lowres_dir ds) name) in *.
  set (hp := os_path_join (highres_dir ds) name) in *.
  destruct (Image_open_cases lp e) as [(iml & Hl & Hopen)|(Hl & kl & Hopen)].
  - destruct Hfail as [Hfail|Hfail]; [destruct Hfail; by exists iml|].
    destruct (Image_open_fails hp (emit (EvOpen lp) e) Hfail) as [kh Hh].
    destruct (Image_open_fails hp e Hfail) as [kh' Hh'].
    assert (kh' = kh) as ->.
    { unfold Image_open_convert in Hh, Hh'. simpl in Hh.
      destruct (fs e !! hp) as [[]|]; congruence. }
    exists (OSError kh hp), (load_error_line lp hp (OSError kh hp)),
      (emit (EvPrint (load_error_line lp hp (OSError kh hp)))
         (emit (EvOpen hp) (emit (EvOpen lp) e))).
    rewrite Hopen, Hh, Hh'.
    split; [reflexivity|]. split; [by right|]. split; [reflexivity|].
    split; [apply load_error_line_contains|].
    split; [apply load_error_line_contains|].
    split; [right; simpl; by rewrite <- !app_assoc|reflexivity].
  - exists (OSError kl lp), (load_error_line lp hp (OSError kl lp)),
      (emit (EvPrint (load_error_line lp hp (OSError kl lp)))
         (emit (EvOpen lp) e)).
    rewrite Hopen.
    split; [reflexivity|]. split; [by left|]. split; [reflexivity|].
    split; [apply load_error_line_contains|].
    split; [apply load_error_line_contains|].
    split; [left; simpl; by rewrite <- !app_assoc|reflexivity].
Qed.

Lemma getitem_load_failure_logged_witness :
  exists ex line e',
    getitem 0 (ds0, env0) = (inl ex, (ds0, e'))
    /\ (fst (Image_open_convert "lr/b.jpg" env0) = inl ex
        \/ fst (Image_open_convert "hr/b.jpg" env0) = inl ex)
    /\ line = load_error_line "lr/b.jpg" "hr/b.jpg" ex
    /\ contains line "lr/b.jpg" /\ contains line "hr/b.jpg"
    /\ (events e' = events env0 ++ [EvOpen "lr/b.jpg"; EvPrint line]
        \/ events e'
           = events env0 ++ [EvOpen "lr/b.jpg"; EvOpen "hr/b.jpg"; EvPrint line])
    /\ fs e' = fs env0.
Proof.
  apply (getitem_load_failure_logged ds0 env0 0 "b.jpg").
  - by vm_compute.
  - reflexivity.
  - right. intros [im Him]. vm_compute in Him. discriminate.
Defined.

(** A missing low-res file: the high-res file is not opened at all. *)
Example getitem_missing_lowres :
  fst (getitem 1 (ds0, env0)) = inl (OSError ENOENT "lr/d.jpeg")
  /\ events (snd (snd (getitem 1 (ds0, env0))))
     = [EvOpen "lr/d.jpeg";
        EvPrint "Error loading image lr/d.jpeg or hr/d.jpeg: [Errno 2] No such file or directory: 'lr/d.jpeg'"].
Proof. split; reflexivity. Qed.

(** *** No mutation of [self] *)

Section Frame.

Context {O : Type}.

Lemma preserves_ret {A} (a : A) : preserves_self (O := O) (ret a).
Proof. by intros s. Qed.

Lemma preserves_raise {A} (ex : exn) :
  preserves_self (O := O) (A := A) (raise ex).
Proof. by intros s. Qed.

Lemma preserves_lift {A} (r : exn + A) : preserves_self (O := O) (lift r).
Proof. by intros s. Qed.

Lemma preserves_getattr {A} (field : O -> A) : preserves_self (getattr field).
Proof. by intros s. Qed.

Lemma preserves_world {A} (m : M Env A) : preserves_self (O := O) (world m).
Proof. intros s. unfold world. by destruct (m (snd s)). Qed.

Lemma preserves_bind {A B} (m : M (O * Env) A) (k : A -> M (O * Env) B) :
  preserves_self m -> (forall a, preserves_self (k a)) ->
  preserves_self (bind m k).
Proof.
  intros Hm Hk s. unfold bind. specialize (Hm s).
  destruct (m s) as [[ex|a] s']; simpl in *; [done|].
  by rewrite Hk.
Qed.

Lemma preserves_try_except {A}
  (body : M (O * Env) A) (handler : exn -> M (O * Env) A) :
  preserves_self body -> (forall ex, preserves_self (handler ex)) ->
  preserves_self (try_except body handler).
Proof.
  intros Hb Hh s. unfold try_except. specialize (Hb s).
  destruct (body s) as [[ex|a] s']; simpl in *; [|done].
  by rewrite Hh.
Qed.

End Frame.

Create HintDb frame.

#[local] Hint Resolve preserves_ret preserves_raise preserves_lift
  preserves_getattr preserves_world : frame.

Lemma resolve_paths_preserves_self (idx : Z) : preserves_self (resolve_paths idx).
Proof.
  unfold resolve_paths.
  repeat (apply preserves_bind; [auto with frame|intros ?]).
  auto with frame.
Qed.

(** C8. A call of [get] leaves the stored state of the dataset as it was:
    [lowres_dir], [highres_dir], the file list, [hr_crop_size] and
    [scale] after the call are those before it, whatever the index, the
    world and the outcome. *)
Theorem getitem_preserves_self (idx : Z) (ds : CustomDataset) (e : Env) :
  let ds' := fst (snd (getitem idx (ds, e))) in
  ds' = ds
  /\ lowres_dir ds' = lowres_dir ds
  /\ highres_dir ds' = highres_dir ds
  /\ image_files ds' = image_files ds
  /\ hr_crop_size ds' = hr_crop_size ds
  /\ scale ds' = scale ds.
Proof.
  assert (preserves_self (getitem idx)) as Hframe.
  { unfold getitem.
    apply preserves_bind; [apply resolve_paths_preserves_self|].
    intros [lowres_path highres_path].
    apply preserves_bind.
    - apply preserves_try_except.
      + repeat (apply preserves_bind; [auto with frame|intros ?]).
        auto with frame.
      + intros ex. apply preserves_bind; auto with frame.
    - intros [lowres_image highres_image].
      repeat (apply preserves_bind; [auto with frame|intros ?]).
      auto with frame. }
  cbv zeta. rewrite (Hframe (ds, e)). simpl. auto 10.
Qed.

Lemma getitem_not_IndexError
  (idx : Z) (ds : CustomDataset) (e : Env) (name : string) :
  list_getitem (image_files ds) idx = inr name ->
  fst (getitem idx (ds, e)) <> inl IndexError.
Proof.
  intros Hget. rewrite (getitem_unfold idx ds e name Hget). cbv zeta.
  set (lp := os_path_join (lowres_dir ds) name).
  set (hp := os_path_join (highres_dir ds) name).
  destruct (Image_open_cases lp e) as [(iml & _ & ->)|(_ & kl & ->)];
    [|discriminate].
  destruct (Image_open_cases hp (emit (EvOpen lp) e))
    as [(imh & _ & ->)|(_ & kh & ->)]; [|discriminate].
  pose proof (random_crop_not_IndexError (convert_RGB iml) (convert_RGB imh)
                (hr_crop_size ds) (scale ds)
                (emit (EvOpen hp) (emit (EvOpen lp) e))) as Hrc.
  by destruct (random_crop _ _ _ _ _).
Qed.

(** C9. A negative index from [-n] to [-1], with [n = length()], is not
    out of range: [get] resolves the paths of entry [n + idx], behaves in
    every respect like [get(n + idx)], raises no [IndexError], and when
    both files load returns the random crop of that entry's images. *)
Theorem getitem_negative_index (ds : CustomDataset) (e : Env) (idx : Z) :
  0 < len ds -> - len ds <= idx < 0 ->
  exists name,
    image_files ds !! Z.to_nat (len ds + idx) = Some name
    /\ resolve_paths idx (ds, e)
       = (inr (os_path_join (lowres_dir ds) name,
               os_path_join (highres_dir ds) name), (ds, e))
    /\ getitem idx (ds, e) = getitem (len ds + idx) (ds, e)
    /\ fst (getitem idx (ds, e)) <> inl IndexError
    /\ forall iml imh,
         fs e !! os_path_join (lowres_dir ds) name = Some (ImageFile iml) ->
         fs e !! os_path_join (highres_dir ds) name = Some (ImageFile imh) ->
         fst (getitem idx (ds, e))
         = fst (random_crop (convert_RGB iml) (convert_RGB imh)
                  (hr_crop_size ds) (scale ds)
                  (emit (EvOpen (os_path_join (highres_dir ds) name))
                     (emit (EvOpen (os_path_join (lowres_dir ds) name)) e))).
Proof.
  intros Hn Hidx. unfold len in *.
  pose proof (list_getitem_negative (image_files ds) idx Hidx) as Hneg.
  destruct (list_getitem_in_range (image_files ds)
              (Z.of_nat (length (image_files ds)) + idx))
    as (name & Hname & Hget); [lia|].
  exists name. split; [exact Hname|].
  assert (list_getitem (image_files ds) idx = inr name) as Hget'
    by (by rewrite Hneg).
  split; [by rewrite resolve_paths_unfold, Hget'|].
  split; [by rewrite (getitem_unfold _ _ _ _ Hget'), (getitem_unfold _ _ _ _ Hget)|].
  split; [by apply (getitem_not_IndexError idx ds e name)|].
  intros iml imh Hl Hh.
  rewrite (getitem_unfold _ _ _ _ Hget'). cbv zeta.
  rewrite (Image_open_loads _ e iml Hl).
  rewrite (Image_open_loads _ (emit (EvOpen _) e) imh Hh).
  by destruct (random_crop _ _ _ _ _).
Qed.

Lemma getitem_negative_index_witness :
  exists name,
    image_files ds0 !! Z.to_nat (len ds0 + -1) = Some name
    /\ resolve_paths (-1) (ds0, env0)
       = (inr (os_path_join (lowres_dir ds0) name,
               os_path_join (highres_dir ds0) name), (ds0, env0))
    /\ getitem (-1) (ds0, env0) = getitem (len ds0 + -1) (ds0, env0)
    /\ fst (getitem (-1) (ds0, env0)) <> inl IndexError
    /\ forall iml imh,
         fs env0 !! os_path_join (lowres_dir ds0) name = Some (ImageFile iml) ->
         fs env0 !! os_path_join (highres_dir ds0) name = Some (ImageFile imh) ->
         fst (getitem (-1) (ds0, env0))
         = fst (random_crop (convert_RGB iml) (convert_RGB imh)
                  (hr_crop_size ds0) (scale ds0)
                  (emit (EvOpen (os_path_join (highres_dir ds0) name))
                     (emit (EvOpen (os_path_join (lowres_dir ds0) name)) env0))).
Proof.
  apply (getitem_negative_index ds0 env0 (-1)); by vm_compute.
Defined.


Example getitem_grey_files :
  let ds := {| lowres_dir := "lr"; highres_dir := "hr";
               image_files := ["g.png"]; hr_crop_size := 16; scale := 4 |} in
  match fst (getitem 0 (ds, env0)) with
  | inr (tl, th) => shape tl = [3; 4; 4] /\ shape th = [3; 16; 16]
  | inl _ => False
  end.
Proof. vm_compute. auto. Qed.

(** ** [save_checkpoint] *)

Lemma checkpoint_name_relative (ep : Z) :
  startswith (checkpoint_name ep) "/" = false.
Proof. reflexivity. Qed.







(** The empty path names no directory that could be created. *)
Example save_checkpoint_empty_dir :
  fst (save_checkpoint net0 opt0 "" 0 env0) = inl (OSError ENOENT "").
Proof. reflexivity. Qed.

(** * Further properties of the module *)

(** ** More on strings *)

Lemma app_inj_length (a b s t : string) :
  String.length a = String.length b ->
  a +:+ s = b +:+ t -> a = b /\ s = t.
Proof.
  revert b. induction a as [|c a IH]; intros [|d b] Hlen Heq;
    simpl in Hlen; try discriminate.
  - by split.
  - rewrite !app_cons in Heq. injection Heq as -> Heq.
    destruct (IH b) as [-> ->]; [lia|done|done].
Qed.

Lemma app_inv_tail_str (a b s : string) : a +:+ s = b +:+ s -> a = b.
Proof.
  intros Heq. apply (app_inj_length a b s s); [|done].
  apply (f_equal String.length) in Heq. rewrite !length_app_str in Heq. lia.
Qed.

Lemma to_int_proper (n : Z) :
  Z.to_int n <> Decimal.Pos Decimal.Nil /\ Z.to_int n <> Decimal.Neg Decimal.Nil.
Proof.
  pose proof (DecimalZ.to_of (Z.to_int n)) as Hnorm.
  rewrite DecimalZ.of_to in Hnorm.
  split; intros Heq; rewrite Heq in Hnorm; discriminate.
Qed.

(** [str] of an int can be read back: different ints print differently. *)
Lemma str_int_inj (n m : Z) : str_int n = str_int m -> n = m.
Proof.
  unfold str_int. intros Heq. apply DecimalZ.to_int_inj.
  destruct (to_int_proper n) as [Hn1 Hn2].
  destruct (to_int_proper m) as [Hm1 Hm2].
  pose proof (DecimalString.NilZero.isi _ Hn1 Hn2) as Hn.
  pose proof (DecimalString.NilZero.isi _ Hm1 Hm2) as Hm.
  rewrite Heq in Hn. congruence.
Qed.

Lemma checkpoint_name_inj (ep ep2 : Z) :
  checkpoint_name ep = checkpoint_name ep2 -> ep = ep2.
Proof.
  unfold checkpoint_name. intros Heq%(inj (String.app "model_epoch_")).
  by apply app_inv_tail_str, str_int_inj in Heq.
Qed.

Lemma checkpoint_path_inj (dir : string) (ep ep2 : Z) :
  os_path_join dir (checkpoint_name ep) = os_path_join dir (checkpoint_name ep2) ->
  ep = ep2.
Proof.
  unfold os_path_join. rewrite !checkpoint_name_relative.
  destruct (String.eqb dir "" || endswith dir "/"); intros Heq.
  - by apply (inj (String.app dir)), checkpoint_name_inj in Heq.
  - by apply (inj (String.app dir)), (inj (String.app "/")),
      checkpoint_name_inj in Heq.
Qed.

(** ** More on [random_crop] *)

(** What [random_crop] leaves of the world, whatever its outcome. *)
Lemma random_crop_world (lowres_img highres_img : Image) (hr sc : Z) (e : Env) :
  let r := random_crop lowres_img highres_img hr sc e in
  events (snd r) = events e /\ fs (snd r) = fs e /\ draws (snd r) = draws e
  /\ (cursor e <= cursor (snd r) <= cursor e + 2)%nat
  /\ (forall s, fst r = inr s -> cursor (snd r) = (cursor e + 2)%nat).
Proof.
  cbv zeta.
  unfold random_crop, crop_origins, floordiv, randint, crop,
    lowres_box, highres_box. run.
  repeat (case_match; simplify_eq/=); repeat split; try lia; try done;
    intros; lia.
Qed.




(** X1. [random_crop] touches nothing but the random source: it prints
    nothing, makes no file-system call and leaves the file system as it
    is; it consumes at most two draws, and exactly two when it returns. *)
Theorem random_crop_uses_only_the_random_source
  (lowres_img highres_img : Image) (hr sc : Z) (e : Env) :
  let r := random_crop lowres_img highres_img hr sc e in
  events (snd r) = events e /\ fs (snd r) = fs e /\ draws (snd r) = draws e
  /\ (cursor e <= cursor (snd r) <= cursor e + 2)%nat
  /\ (forall s, fst r = inr s -> cursor (snd r) = (cursor e + 2)%nat).
Proof. apply random_crop_world. Qed.









(** ** More on [CustomDataset] *)

#[local] Arguments endswith_any : simpl never.

Lemma getitem_index_error (idx : Z) (ds : CustomDataset) (e : Env) (ex : exn) :
  list_getitem (image_files ds) idx = inl ex ->
  getitem idx (ds, e) = (inl ex, (ds, e)).
Proof.
  intros Hget. unfold getitem. unfold bind at 1.
  by rewrite resolve_paths_unfold, Hget.
Qed.

Lemma list_getitem_error {A} (l : list A) (idx : Z) (ex : exn) :
  list_getitem l idx = inl ex -> ex = IndexError.
Proof.
  unfold list_getitem. intros Hget.
  repeat (case_match; simplify_eq/=); done.
Qed.

Lemma filter_sublist {A} (f : A -> bool) (l : list A) :
  sublist (List.filter f l) l.
Proof.
  induction l as [|a l IH]; simpl; [constructor|].
  destruct (f a); by constructor.
Qed.



(** X7. The file list of a dataset is the listing of [lowres_dir] with the
    unrecognized names left out: it keeps the listing's order, holds
    exactly the recognized entries, and construction reads nothing but
    that one listing (no file is opened, [highres_dir] is not looked at,
    the file system and the random source are left alone). *)
Theorem init_image_files
  (ldir hdir : string) (hr sc : Z) (entries : list string) (e : Env) :
  fs e !! ldir = Some (Directory entries) ->
  exists self e' line,
    init ldir hdir hr sc e = (inr self, e')
    /\ lowres_dir self = ldir /\ highres_dir self = hdir
    /\ hr_crop_size self = hr /\ scale self = sc
    /\ sublist (image_files self) entries
    /\ (forall name,
          name ∈ image_files self <-> name ∈ entries /\ recognized name)
    /\ events e' = events e ++ [EvListdir ldir; EvPrint line]
    /\ fs e' = fs e /\ cursor e' = cursor e.
Proof.
  intros Hdir. destruct (init_ok ldir hdir hr sc entries e Hdir) as [line ->].
  eexists _, _, line. split; [reflexivity|]. simpl.
  do 4 (split; [reflexivity|]).
  split; [apply filter_sublist|].
  split.
  { intros name.
    rewrite !list_elem_of_In, filter_In, <- endswith_any_recognized.
    reflexivity. }
  split; [by rewrite <- app_assoc|]. by split.
Qed.

Lemma init_image_files_witness :
  exists self e' line,
    init "lr" "hr" 16 4 env0 = (inr self, e')
    /\ lowres_dir self = "lr" /\ highres_dir self = "hr"
    /\ hr_crop_size self = 16 /\ scale self = 4
    /\ sublist (image_files self)
         ["b.jpg"; "notes.txt"; "d.jpeg"; "c.PNG"; "a.png"]
    /\ (forall name,
          name ∈ image_files self
          <-> name ∈ ["b.jpg"; "notes.txt"; "d.jpeg"; "c.PNG"; "a.png"]
              /\ recognized name)
    /\ events e' = events env0 ++ [EvListdir "lr"; EvPrint line]
    /\ fs e' = fs env0 /\ cursor e' = cursor env0.
Proof.
  apply (init_image_files "lr" "hr" 16 4
           ["b.jpg"; "notes.txt"; "d.jpeg"; "c.PNG"; "a.png"] env0).
  reflexivity.
Defined.

(** X8. A listing without a recognized name still builds a dataset: its
    length is 0, the line printed is the "No image files found"
    diagnostic, and [get] on it raises [IndexError] at every index, without
    opening a file. *)
Theorem init_no_images
  (ldir hdir : string) (hr sc : Z) (entries : list string) (e : Env) :
  fs e !! ldir = Some (Directory entries) ->
  (forall name, name ∈ entries -> ~ recognized name) ->
  exists self e',
    init ldir hdir hr sc e = (inr self, e')
    /\ len self = 0
    /\ events e'
       = events e
         ++ [EvListdir ldir;
             EvPrint ("No image files found in " +:+ ldir
                      +:+ ". Please check the directory and file formats.")]
    /\ forall idx w, getitem idx (self, w) = (inl IndexError, (self, w)).
Proof.
  intros Hdir Hnone.
  assert (List.filter (fun f => endswith_any f image_extensions) entries = [])
    as Hempty.
  { destruct (List.filter _ entries) as [|name rest] eqn:Hf; [done|].
    assert (In name (List.filter (fun f => endswith_any f image_extensions)
                       entries)) as Hin by (rewrite Hf; by left).
    apply filter_In in Hin as [Hin Hext].
    destruct (Hnone name); [by apply list_elem_of_In|].
    by apply endswith_any_recognized. }
  unfold init, os_listdir, print. run. rewrite Hdir. simpl.
  rewrite Hempty. simpl.
  eexists _, _. split; [reflexivity|]. split; [reflexivity|].
  split; [simpl; by rewrite <- app_assoc|].
  intros idx w. apply getitem_index_error. simpl.
  apply list_getitem_out_of_range. simpl. lia.
Qed.

Lemma init_no_images_witness :
  exists self e',
    init "d" "hr" 16 4 (set_fs {[ "d" := Directory ["notes.txt"; "c.PNG"] ]} env0)
    = (inr self, e')
    /\ len self = 0
    /\ events e'
       = events (set_fs {[ "d" := Directory ["notes.txt"; "c.PNG"] ]} env0)
         ++ [EvListdir "d";
             EvPrint ("No image files found in " +:+ "d"
                      +:+ ". Please check the directory and file formats.")]
    /\ forall idx w, getitem idx (self, w) = (inl IndexError, (self, w)).
Proof.
  apply (init_no_images "d" "hr" 16 4 ["notes.txt"; "c.PNG"]
           (set_fs {[ "d" := Directory ["notes.txt"; "c.PNG"] ]} env0)).
  - reflexivity.
  - intros name Hin Hrec%endswith_any_recognized.
    apply list_elem_of_In in Hin. simpl in Hin.
    destruct Hin as [<-|[<-|[]]]; vm_compute in Hrec; discriminate.
Defined.

(** X9. A listing with at least one recognized name builds a dataset of
    positive length [n] and prints "Found n image files in" followed by
    the directory, with [n] in decimal. *)
Theorem init_found
  (ldir hdir : string) (hr sc : Z) (entries : list string) (name : string)
  (e : Env) :
  fs e !! ldir = Some (Directory entries) ->
  name ∈ entries -> recognized name ->
  exists self e',
    init ldir hdir hr sc e = (inr self, e')
    /\ 0 < len self
    /\ events e'
       = events e
         ++ [EvListdir ldir;
             EvPrint ("Found " +:+ str_int (len self)
                      +:+ " image files in " +:+ ldir)].
Proof.
  intros Hdir Hin Hrec.
  assert (In name (List.filter (fun f => endswith_any f image_extensions)
                     entries)) as Hkept.
  { apply filter_In. split; [by apply list_elem_of_In|].
    by apply endswith_any_recognized. }
  unfold init, os_listdir, print. run. rewrite Hdir. simpl.
  destruct (List.filter _ entries) as [|first rest] eqn:Hf; [done|].
  simpl length. destruct (Z.eqb_spec (Z.of_nat (S (length rest))) 0); [lia|].
  eexists _, _. split; [reflexivity|]. unfold len. simpl.
  split; [lia|]. by rewrite <- app_assoc.
Qed.

Lemma init_found_witness :
  exists self e',
    init "lr" "hr" 16 4 env0 = (inr self, e')
    /\ 0 < len self
    /\ events e'
       = events env0
         ++ [EvListdir "lr";
             EvPrint ("Found " +:+ str_int (len self)
                      +:+ " image files in " +:+ "lr")].
Proof.
  apply (init_found "lr" "hr" 16 4
           ["b.jpg"; "notes.txt"; "d.jpeg"; "c.PNG"; "a.png"] "a.png" env0).
  - reflexivity.
  - apply list_elem_of_In. simpl. auto 10.
  - apply endswith_any_recognized. reflexivity.
Defined.

(** The three ways [__getitem__] goes on once entry [name] is resolved. *)
Lemma getitem_cases (idx : Z) (ds : CustomDataset) (e : Env) (name : string) :
  list_getitem (image_files ds) idx = inr name ->
  let lp := os_path_join (lowres_dir ds) name in
  let hp := os_path_join (highres_dir ds) name in
  (~ loads (fs e) lp
   /\ exists kind,
        getitem idx (ds, e)
        = (inl (OSError kind lp),
           (ds, emit (EvPrint (load_error_line lp hp (OSError kind lp)))
                  (emit (EvOpen lp) e))))
  \/ (loads (fs e) lp /\ ~ loads (fs e) hp
      /\ exists kind,
           getitem idx (ds, e)
           = (inl (OSError kind hp),
              (ds, emit (EvPrint (load_error_line lp hp (OSError kind hp)))
                     (emit (EvOpen hp) (emit (EvOpen lp) e)))))
  \/ (exists iml imh,
        fs e !! lp = Some (ImageFile iml) /\ fs e !! hp = Some (ImageFile imh)
        /\ getitem idx (ds, e)
           = (fst (random_crop (convert_RGB iml) (convert_RGB imh)
                     (hr_crop_size ds) (scale ds)
                     (emit (EvOpen hp) (emit (EvOpen lp) e))),
              (ds, snd (random_crop (convert_RGB iml) (convert_RGB imh)
                          (hr_crop_size ds) (scale ds)
                          (emit (EvOpen hp) (emit (EvOpen lp) e)))))).
Proof.
  intros Hget. cbv zeta. rewrite (getitem_unfold _ _ _ _ Hget). cbv zeta.
  set (lp := os_path_join (lowres_dir ds) name).
  set (hp := os_path_join (highres_dir ds) name).
  destruct (Image_open_cases lp e) as [(iml & Hl & Hopen)|(Hl & kl & Hopen)];
    rewrite Hopen.
  - destruct (Image_open_cases hp (emit (EvOpen lp) e))
      as [(imh & Hh & Hopen2)|(Hh & kh & Hopen2)]; rewrite Hopen2.
    + right. right. exists iml, imh. split; [done|]. split; [done|].
      by destruct (random_crop _ _ _ _ _).
    + right. left. split; [by exists iml|]. split; [done|]. by exists kh.
  - left. split; [done|]. by exists kl.
Qed.



(** X11. Whatever the index and the outcome, [get] only reads: the file
    system and the stream of random draws are as before, at most two
    draws are consumed, and the external calls it adds are at most three
    opens and prints; it never lists a directory, creates one or saves a
    file. *)
Theorem getitem_read_only (idx : Z) (ds : CustomDataset) (e : Env) :
  let e' := snd (snd (getitem idx (ds, e))) in
  fs e' = fs e /\ draws e' = draws e
  /\ (cursor e <= cursor e' <= cursor e + 2)%nat
  /\ exists new,
       events e' = events e ++ new
       /\ Forall read_only new /\ (length new <= 3)%nat
       /\ Forall (fun ev => forall p, ev <> EvListdir p) new.
Proof.
  cbv zeta.
  destruct (list_getitem (image_files ds) idx) as [ex|name] eqn:Hget.
  { rewrite (getitem_index_error _ _ _ _ Hget). simpl.
    repeat split; try lia. exists []. rewrite app_nil_r.
    repeat split; auto. }
  destruct (getitem_cases idx ds e name Hget)
    as [(_ & k & ->)|[(_ & _ & k & ->)|(iml & imh & _ & _ & ->)]]; simpl.
  - repeat split; try lia. eexists [_; _]. rewrite <- app_assoc.
    split; [reflexivity|]. repeat constructor; discriminate.
  - repeat split; try lia. eexists [_; _; _]. rewrite <- !app_assoc.
    split; [reflexivity|]. repeat constructor; discriminate.
  - destruct (random_crop_world (convert_RGB iml) (convert_RGB imh)
                (hr_crop_size ds) (scale ds)
                (emit (EvOpen (os_path_join (highres_dir ds) name))
                   (emit (EvOpen (os_path_join (lowres_dir ds) name)) e)))
      as (Hev & Hfs & Hdr & Hcur & _).
    rewrite Hev, Hfs, Hdr. simpl in *.
    repeat split; try lia. eexists [_; _]. rewrite <- app_assoc.
    split; [reflexivity|]. repeat constructor; discriminate.
Qed.

(** X12. A [get] that returns a sample has opened the low-res file and
    then the high-res file of one entry, each once, has printed nothing
    and has consumed exactly two random draws. *)
Theorem getitem_success_trace
  (idx : Z) (ds : CustomDataset) (e : Env) (sample : Tensor * Tensor) :
  fst (getitem idx (ds, e)) = inr sample ->
  exists name,
    list_getitem (image_files ds) idx = inr name
    /\ events (snd (snd (getitem idx (ds, e))))
       = events e ++ [EvOpen (os_path_join (lowres_dir ds) name);
                      EvOpen (os_path_join (highres_dir ds) name)]
    /\ cursor (snd (snd (getitem idx (ds, e)))) = (cursor e + 2)%nat.
Proof.
  intros Hret.
  destruct (list_getitem (image_files ds) idx) as [ex|name] eqn:Hget.
  { by rewrite (getitem_index_error _ _ _ _ Hget) in Hret. }
  exists name. split; [done|].
  destruct (getitem_cases idx ds e name Hget)
    as [(_ & k & Heq)|[(_ & _ & k & Heq)|(iml & imh & _ & _ & Heq)]];
    rewrite Heq in Hret |- *; simpl in *; try discriminate.
  destruct (random_crop_world (convert_RGB iml) (convert_RGB imh)
              (hr_crop_size ds) (scale ds)
              (emit (EvOpen (os_path_join (highres_dir ds) name))
                 (emit (EvOpen (os_path_join (lowres_dir ds) name)) e)))
    as (Hev & _ & _ & _ & Hcur).
  rewrite Hev, (Hcur sample Hret). simpl. by rewrite <- app_assoc.
Qed.

Lemma getitem_success_trace_witness :
  exists name,
    list_getitem (image_files ds0) 2 = inr name
    /\ events (snd (snd (getitem 2 (ds0, env0))))
       = events env0 ++ [EvOpen (os_path_join (lowres_dir ds0) name);
                         EvOpen (os_path_join (highres_dir ds0) name)]
    /\ cursor (snd (snd (getitem 2 (ds0, env0)))) = (cursor env0 + 2)%nat.
Proof.
  destruct (fst (getitem 2 (ds0, env0))) as [ex|sample] eqn:Hret;
    [vm_compute in Hret; discriminate|].
  exact (getitem_success_trace 2 ds0 env0 sample Hret).
Defined.

(** X13. If the low-res file of the entry does not load, [get] stops
    there: the high-res file is not opened, the one line printed names
    both paths, no random draw is consumed, and the error raised is the
    [OSError] for the low-res path. *)
Theorem getitem_lowres_failure_skips_highres
  (idx : Z) (ds : CustomDataset) (e : Env) (name : string) :
  list_getitem (image_files ds) idx = inr name ->
  ~ loads (fs e) (os_path_join (lowres_dir ds) name) ->
  let lp := os_path_join (lowres_dir ds) name in
  let hp := os_path_join (highres_dir ds) name in
  exists kind e',
    getitem idx (ds, e) = (inl (OSError kind lp), (ds, e'))
    /\ events e'
       = events e
         ++ [EvOpen lp; EvPrint (load_error_line lp hp (OSError kind lp))]
    /\ cursor e' = cursor e.
Proof.
  intros Hget Hno. cbv zeta.
  destruct (getitem_cases idx ds e name Hget)
    as [(_ & k & ->)|[([iml Hl] & _)|(iml & imh & Hl & _)]].
  - eexists k, _. split; [reflexivity|]. simpl.
    split; [by rewrite <- app_assoc|reflexivity].
  - destruct Hno. by exists iml.
  - destruct Hno. by exists iml.
Qed.

Lemma getitem_lowres_failure_skips_highres_witness :
  exists kind e',
    getitem 1 (ds0, env0) = (inl (OSError kind "lr/d.jpeg"), (ds0, e'))
    /\ events e'
       = events env0
         ++ [EvOpen "lr/d.jpeg";
             EvPrint (load_error_line "lr/d.jpeg" "hr/d.jpeg"
                        (OSError kind "lr/d.jpeg"))]
    /\ cursor e' = cursor env0.
Proof.
  apply (getitem_lowres_failure_skips_highres 1 ds0 env0 "d.jpeg").
  - reflexivity.
  - intros [im Him]. vm_compute in Him. discriminate.
Defined.

(** X14. The [except] clause covers the two opens only: when both files
    load but the low-res image is smaller than the low-res crop, [get]
    raises the [ValueError] of [random_crop] and prints nothing. *)
Theorem getitem_crop_failure_not_logged
  (idx : Z) (ds : CustomDataset) (e : Env) (name : string) (iml imh : Image) :
  list_getitem (image_files ds) idx = inr name ->
  fs e !! os_path_join (lowres_dir ds) name = Some (ImageFile iml) ->
  fs e !! os_path_join (highres_dir ds) name = Some (ImageFile imh) ->
  scale ds <> 0 ->
  fst (size iml) < hr_crop_size ds / scale ds
  \/ snd (size iml) < hr_crop_size ds / scale ds ->
  exists e',
    getitem idx (ds, e) = (inl ValueError, (ds, e'))
    /\ events e'
       = events e ++ [EvOpen (os_path_join (lowres_dir ds) name);
                      EvOpen (os_path_join (highres_dir ds) name)].
Proof.
  intros Hget Hl Hh Hsc Hsmall.
  rewrite (getitem_unfold _ _ _ _ Hget). cbv zeta.
  rewrite (Image_open_loads _ e iml Hl).
  rewrite (Image_open_loads _ (emit (EvOpen _) e) imh Hh).
  set (e2 := emit (EvOpen (os_path_join (highres_dir ds) name)) _).
  destruct (crop_origins_too_small (convert_RGB iml) (hr_crop_size ds)
              (scale ds) e2 Hsc Hsmall) as (e3 & Ho & Hev & _).
  unfold random_crop. run. rewrite Ho.
  exists e3. split; [reflexivity|]. rewrite Hev. simpl.
  by rewrite <- app_assoc.
Qed.

Lemma getitem_crop_failure_not_logged_witness :
  exists e',
    getitem 0 ({| lowres_dir := "lr"; highres_dir := "hr";
                  image_files := ["a.png"];
                  hr_crop_size := 64; scale := 4 |}, env0)
    = (inl ValueError,
       ({| lowres_dir := "lr"; highres_dir := "hr"; image_files := ["a.png"];
           hr_crop_size := 64; scale := 4 |}, e'))
    /\ events e' = events env0 ++ [EvOpen "lr/a.png"; EvOpen "hr/a.png"].
Proof.
  apply (getitem_crop_failure_not_logged 0
           {| lowres_dir := "lr"; highres_dir := "hr"; image_files := ["a.png"];
              hr_crop_size := 64; scale := 4 |}
           env0 "a.png" (gradient 8 8) (gradient 32 32));
    [reflexivity | reflexivity | reflexivity | discriminate
    | left; by vm_compute].
Defined.

(** ** More on [save_checkpoint] *)


(** X15. The checkpoint path determines the epoch: two different epochs
    are never saved to the same file of a directory. *)
Theorem checkpoint_paths_distinct (dir : string) (ep ep2 : Z) :
  ep <> ep2 ->
  os_path_join dir (checkpoint_name ep) <> os_path_join dir (checkpoint_name ep2).
Proof. intros Hne Heq. by apply Hne, (checkpoint_path_inj dir). Qed.

Lemma checkpoint_paths_distinct_witness :
  os_path_join "ckpt" (checkpoint_name 1) <> os_path_join "ckpt" (checkpoint_name 10).
Proof. apply (checkpoint_paths_distinct "ckpt" 1 10). lia. Defined.







(** X19. With the directory absent or present as a directory, the line
    "Checkpoint saved at" is printed only after the file is written: when
    [save_checkpoint] returns, the file holds the record and that line,
    with the path, is the last thing printed; when it raises, it has
    printed nothing. *)
Theorem save_checkpoint_reports_after_write
  (model optimizer : Stateful) (dir : string) (ep : Z) (e : Env) :
  fs e !! dir = None
  \/ (exists entries, fs e !! dir = Some (Directory entries)) ->
  let path := os_path_join dir (checkpoint_name ep) in
  match save_checkpoint model optimizer dir ep e with
  | (inr _, e') =>
      fs e' !! path
      = Some (CheckpointFile {| model_state_dict := state_dict model;
                                optimizer_state_dict := state_dict optimizer;
                                epoch := ep |})
      /\ exists before,
           events e' = before ++ [EvPrint ("Checkpoint saved at " +:+ path)]
  | (inl _, e') =>
      exists new,
        events e' = events e ++ new /\ Forall (fun ev => ~ is_print ev) new
  end.
Proof.
  intros _. cbv zeta.
  unfold save_checkpoint, os_path_exists, os_makedirs, torch_save, print. run.
  simpl.
  repeat (case_match; simplify_eq/=);
    try (split; [by rewrite lookup_insert_eq | by eexists]);
    try (eexists [_]; split; [reflexivity|];
         repeat (constructor; simpl; try tauto));
    try (eexists [_; _]; rewrite <- app_assoc; split; [reflexivity|];
         repeat (constructor; simpl; try tauto)).
Qed.

Lemma save_checkpoint_reports_after_write_witness :
  match save_checkpoint net0 opt0 "ckpt" 3 env0 with
  | (inr _, e') =>
      fs e' !! os_path_join "ckpt" (checkpoint_name 3)
      = Some (CheckpointFile {| model_state_dict := state_dict net0;
                                optimizer_state_dict := state_dict opt0;
                                epoch := 3 |})
      /\ exists before,
           events e'
           = before
             ++ [EvPrint ("Checkpoint saved at "
                          +:+ os_path_join "ckpt" (checkpoint_name 3))]
  | (inl _, e') =>
      exists new,
        events e' = events env0 ++ new
        /\ Forall (fun ev => ~ is_print ev) new
  end.
Proof.
  apply (save_checkpoint_reports_after_write net0 opt0 "ckpt" 3 env0). by left.
Defined.
